(** * The transmon + LC + transmon notebook

  A model of [tansmon+LC+transmon.ipynb]: the code cells of the notebook as
  abstract syntax, a symbolic run of the cells against the external
  libraries (every library call is recorded and returns a fresh opaque
  object, or raises), and the real-number semantics of the one function
  the notebook defines, [update_hilbertspace]. *)

From Stdlib Require Import ZArith QArith Reals Lra Lia Sorted.
From stdpp Require Import base option list strings gmap.

Open Scope string_scope.
Open Scope list_scope.

Set Warnings "-register-all".

(** ** Abstract syntax of the Python fragment *)

Module Py.

Inductive constant : Type :=
| CInt (z : Z)
| CFloat (q : Q)
| CStr (s : string)
| CBool (b : bool)
| CNone.

Inductive binop : Type := Add | Sub | Mult | Div.

Inductive expr : Type :=
| Name (id : string)
| Constant (c : constant)
| Attribute (value : expr) (attr : string)
| Call (func : expr) (args : list expr) (keywords : list (string * expr))
| ListE (elts : list expr)
| TupleE (elts : list expr)
| DictE (items : list (expr * expr))
| BinOp (left : expr) (op : binop) (right : expr)
| IfExp (test body orelse : expr)
| Lambda (params : list string) (body : expr).

Inductive stmt : Type :=
| Import (module : string) (asname : string)
| Assign (target : expr) (value : expr)
| Expr (value : expr)
| FunctionDef (name : string) (params : list string) (body : list stmt)
| Return (value : expr)
| If (test : expr) (body orelse : list stmt)
| While (test : expr) (body : list stmt)
| For (target : expr) (iter : expr) (body : list stmt)
| Try (body : list stmt) (handler : list stmt)
| With (context : expr) (body : list stmt)
| Raise (exc : expr)
| Assert (test : expr).

Inductive cell : Type :=
| Markdown
| Code (source : list stmt).

Definition notebook : Type := list cell.

Definition source_of (c : cell) : list stmt :=
  match c with
  | Markdown => []
  | Code src => src
  end.

(** All statements of a notebook, top to bottom. *)
Definition program (nb : notebook) : list stmt :=
  concat (map source_of nb).

(** Literals as the notebook writes them. *)
Definition int (z : Z) : expr := Constant (CInt z).
Definition float (q : Q) : expr := Constant (CFloat q).
Definition str (s : string) : expr := Constant (CStr s).

End Py.

Import Py.

(** ** The notebook *)

Module Notebook.

Definition scq (attr : string) : expr := Attribute (Name "scq") attr.
Definition np (attr : string) : expr := Attribute (Name "np") attr.

Definition cell_imports : cell := Code
  [ Import "numpy" "np";
    Import "scqubits" "scq" ].

Definition cell_subsystems : cell := Code
  [ Assign (Name "tmon1")
      (Call (scq "Transmon") []
         [ ("EJ", float 40.0); ("EC", float 0.2); ("ng", float 0.3);
           ("ncut", int 40); ("truncated_dim", int 4) ]);
    Assign (Name "tmon2")
      (Call (scq "Transmon") []
         [ ("EJ", float 15.0); ("EC", float 0.15); ("ng", float 0.0);
           ("ncut", int 30); ("truncated_dim", int 4) ]);
    Assign (Name "resonator")
      (Call (scq "Oscillator") []
         [ ("E_osc", float 4.5); ("truncated_dim", int 4) ]) ].

Definition cell_gui : cell := Code
  [ Assign (Name "g") (float 0.1);
    Assign (Name "hilbertspace")
      (Call (Attribute (scq "HilbertSpace") "create") [] []) ].

Definition cell_hilbertspace : cell := Code
  [ Assign (Name "hilbertspace")
      (Call (scq "HilbertSpace")
         [ ListE [Name "tmon1"; Name "tmon2"; Name "resonator"] ] []);
    Expr (Call (Name "print") [Name "hilbertspace"] []) ].

Definition cell_interactions : cell := Code
  [ Assign (Name "g1") (float 0.1);
    Assign (Name "operator1")
      (Call (Attribute (Name "tmon1") "n_operator") [] []);
    Assign (Name "operator2")
      (BinOp
         (Call (Attribute (Name "resonator") "creation_operator") [] [])
         Add
         (Call (Attribute (Name "resonator") "annihilation_operator") [] []));
    Expr (Call (Attribute (Name "hilbertspace") "add_interaction") []
            [ ("g", Name "g1");
              ("op1", TupleE [Name "operator1"; Name "tmon1"]);
              ("op2", TupleE [Name "operator2"; Name "resonator"]) ]);
    Assign (Name "g2") (float 0.2);
    Expr (Call (Attribute (Name "hilbertspace") "add_interaction") []
            [ ("g", Name "g2");
              ("op1", Attribute (Name "tmon2") "n_operator");
              ("op2", Attribute (Name "resonator") "creation_operator");
              ("add_hc", Constant (CBool true)) ]) ].

Definition update_hilbertspace_body : list stmt :=
  [ Assign (Attribute (Name "tmon1") "EJ")
      (BinOp (int 30) Mult
         (Call (np "abs")
            [ Call (np "cos") [BinOp (np "pi") Mult (Name "param_val")] [] ]
            []));
    Assign (Attribute (Name "tmon2") "EJ")
      (BinOp (int 40) Mult
         (Call (np "abs")
            [ Call (np "cos")
                [BinOp (BinOp (np "pi") Mult (Name "param_val")) Mult (int 2)]
                [] ]
            [])) ].

Definition cell_sweep : cell := Code
  [ Assign (Name "param_name") (str "Φext/Φ0");
    Assign (Name "param_vals")
      (Call (np "linspace") [float 0.0; float 1.0; int 151] []);
    Assign (Name "subsys_update_list") (ListE [Name "tmon1"; Name "tmon2"]);
    FunctionDef "update_hilbertspace" ["param_val"] update_hilbertspace_body;
    Assign (Name "sweep")
      (Call (scq "ParameterSweep") []
         [ ("paramvals_by_name",
            DictE [(Name "param_name", Name "param_vals")]);
           ("evals_count", int 15);
           ("hilbertspace", Name "hilbertspace");
           ("subsys_update_info",
            DictE [(Name "param_name", ListE [Name "tmon1"; Name "tmon2"])]);
           ("update_hilbertspace", Name "update_hilbertspace") ]) ].

Definition cell_explorer : cell := Code
  [ Assign (Name "explorer")
      (Call (scq "Explorer") [] [("sweep", Name "sweep")]) ].

(** The cells in file order; the markdown cells carry no code. *)
Definition cells : notebook :=
  [ cell_imports;
    Markdown; Markdown; Markdown;
    cell_subsystems;
    Markdown;
    cell_gui;
    Markdown;
    cell_hilbertspace;
    Markdown;
    cell_interactions;
    cell_sweep;
    cell_explorer;
    Code [];
    Code [] ].

End Notebook.

(** ** Syntactic traversals *)

Module Syntax.

(** Every statement of a block, nested bodies included, in source order. *)
Fixpoint stmts_of (s : stmt) : list stmt :=
  let block := fix block (b : list stmt) : list stmt :=
    match b with
    | [] => []
    | s' :: b' => stmts_of s' ++ block b'
    end in
  s :: match s with
       | FunctionDef _ _ body => block body
       | If _ body orelse => block body ++ block orelse
       | While _ body => block body
       | For _ _ body => block body
       | Try body handler => block body ++ block handler
       | With _ body => block body
       | _ => []
       end.

Definition all_stmts (nb : notebook) : list stmt :=
  flat_map stmts_of (program nb).

(** Every expression below [e], [e] included. *)
Fixpoint exprs_of (e : expr) : list expr :=
  e :: match e with
       | Name _ | Constant _ => []
       | Attribute v _ => exprs_of v
       | Call f args kws =>
           exprs_of f
           ++ (fix go (es : list expr) : list expr :=
                 match es with
                 | [] => []
                 | a :: es' => exprs_of a ++ go es'
                 end) args
           ++ (fix go (ks : list (string * expr)) : list expr :=
                 match ks with
                 | [] => []
                 | (_, a) :: ks' => exprs_of a ++ go ks'
                 end) kws
       | ListE es | TupleE es =>
           (fix go (es : list expr) : list expr :=
              match es with
              | [] => []
              | a :: es' => exprs_of a ++ go es'
              end) es
       | DictE items =>
           (fix go (ks : list (expr * expr)) : list expr :=
              match ks with
              | [] => []
              | (k, a) :: ks' => exprs_of k ++ exprs_of a ++ go ks'
              end) items
       | BinOp l _ r => exprs_of l ++ exprs_of r
       | IfExp c a b => exprs_of c ++ exprs_of a ++ exprs_of b
       | Lambda _ b => exprs_of b
       end.

(** The expressions a statement itself holds (not those of nested
    statements, which [stmts_of] reaches). *)
Definition stmt_exprs (s : stmt) : list expr :=
  match s with
  | Import _ _ => []
  | Assign t v => exprs_of t ++ exprs_of v
  | Expr v | Return v | Raise v | Assert v => exprs_of v
  | FunctionDef _ _ _ => []
  | If c _ _ | While c _ => exprs_of c
  | For t i _ => exprs_of t ++ exprs_of i
  | Try _ _ => []
  | With c _ => exprs_of c
  end.

Definition all_exprs (nb : notebook) : list expr :=
  flat_map stmt_exprs (all_stmts nb).

Definition imported_modules (nb : notebook) : list string :=
  flat_map (fun s => match s with Import m _ => [m] | _ => [] end)
           (all_stmts nb).

Definition defined_functions (nb : notebook) : list string :=
  flat_map (fun s => match s with FunctionDef f _ _ => [f] | _ => [] end)
           (all_stmts nb).

(** Branching and looping statements. *)
Definition is_control_flow (s : stmt) : bool :=
  match s with
  | If _ _ _ | While _ _ | For _ _ _ => true
  | _ => false
  end.

(** Statements that can intercept an exception: [try] with its handler,
    and [with], whose context manager may swallow it. *)
Definition is_handler (s : stmt) : bool :=
  match s with
  | Try _ _ | With _ _ => true
  | _ => false
  end.


Definition is_branching_expr (e : expr) : bool :=
  match e with
  | IfExp _ _ _ => true
  | _ => false
  end.

Definition is_lambda (e : expr) : bool :=
  match e with
  | Lambda _ _ => true
  | _ => false
  end.

(** Dotted path of a callee: [scq.HilbertSpace.create] is
    [["scq"; "HilbertSpace"; "create"]]. *)
Fixpoint path_of (e : expr) : option (list string) :=
  match e with
  | Name x => Some [x]
  | Attribute v a =>
      match path_of v with
      | Some p => Some (p ++ [a])
      | None => None
      end
  | _ => None
  end.

End Syntax.

(** ** Symbolic run of the cells

    The libraries are external, so a run keeps their objects opaque: the
    [n]-th call made by the notebook is recorded with its callee and
    arguments and returns the fresh object [VObj n], unless the call
    raises.  Which calls raise is a parameter of the run. *)

Module Run.

Inductive value : Type :=
| VConst (c : constant)
| VModule (name : string)
| VBuiltin (name : string)
| VGet (v : value) (attr : string)
| VObj (n : nat)
| VList (vs : list value)
| VTuple (vs : list value)
| VDict (items : list (value * value))
| VBin (l : value) (op : binop) (r : value)
| VFunc (name : string) (params : list string) (body : list stmt).

Record event : Type := Event {
  callee : value;
  args : list value;
  kwargs : list (string * value)
}.

Inductive exn : Type :=
| LibraryError (call : nat)
| NameError (id : string)
| TypeError
| Raised (v : value).

Inductive result (A : Type) : Type :=
| Ok (a : A)
| Exn (e : exn)
| Unsupported.
Arguments Ok {A} a.
Arguments Exn {A} e.
Arguments Unsupported {A}.

Record state : Type := State {
  globals : gmap string value;
  trace : list event
}.

Definition M (A : Type) : Type := state -> result A * state.

Definition ret {A} (a : A) : M A := fun st => (Ok a, st).

Definition throw {A} (e : exn) : M A := fun st => (Exn e, st).

Definition unsupported {A} : M A := fun st => (Unsupported, st).

Definition bind {A B} (m : M A) (k : A -> M B) : M B :=
  fun st =>
    match m st with
    | (Ok a, st') => k a st'
    | (Exn e, st') => (Exn e, st')
    | (Unsupported, st') => (Unsupported, st')
    end.

Notation "x <- m ;; k" := (bind m (fun x => k))
  (at level 100, m at next level, right associativity).

(** [try: ... except: ...] with a bare handler. *)
Definition catch (m h : M unit) : M unit :=
  fun st =>
    match m st with
    | (Exn _, st') => h st'
    | r => r
    end.

(** Left-to-right evaluation of a sequence. *)
Fixpoint mapM {A B} (f : A -> M B) (l : list A) : M (list B) :=
  match l with
  | [] => ret []
  | a :: l' => v <- f a ;; vs <- mapM f l' ;; ret (v :: vs)
  end.

Fixpoint seqM {A} (f : A -> M unit) (l : list A) : M unit :=
  match l with
  | [] => ret tt
  | a :: l' => _ <- f a ;; seqM f l'
  end.

Definition builtins : list string :=
  ["print"; "open"; "input"; "len"; "range"; "abs"].

Definition lookup_name (x : string) : M value :=
  fun st =>
    match globals st !! x with
    | Some v => (Ok v, st)
    | None =>
        if bool_decide (x ∈ builtins) then (Ok (VBuiltin x), st)
        else (Exn (NameError x), st)
    end.

Definition set_global (x : string) (v : value) : M unit :=
  fun st => (Ok tt, State (<[x := v]> (globals st)) (trace st)).

Section Oracle.

(** [raises n]: the [n]-th call of the run raises. *)
Variable raises : nat -> bool.

(** What a call returns when it does not raise. *)
Definition returned (f : value) (n : nat) : value :=
  match f with
  | VBuiltin "print" => VConst CNone
  | _ => VObj n
  end.

Definition call (f : value) (avs : list value) (kvs : list (string * value))
  : M value :=
  fun st =>
    match f with
    | VFunc _ _ _ => (Unsupported, st)
    | VConst _ | VModule _ | VList _ | VTuple _ | VDict _ => (Exn TypeError, st)
    | VBuiltin _ | VGet _ _ | VObj _ | VBin _ _ _ =>
        let n := length (trace st) in
        let st' := State (globals st) (trace st ++ [Event f avs kvs]) in
        if raises n then (Exn (LibraryError n), st')
        else (Ok (returned f n), st')
    end.

(** Python evaluates the callee, then the positional arguments left to
    right, then the keyword arguments in order, then performs the call. *)
Fixpoint eval (e : expr) : M value :=
  match e with
  | Name x => lookup_name x
  | Constant c => ret (VConst c)
  | Attribute v a =>
      o <- eval v ;; ret (VGet o a)
  | Call f es ks =>
      fv <- eval f ;;
      avs <- mapM eval es ;;
      kvs <- mapM (fun ka => v <- eval (snd ka) ;; ret (fst ka, v)) ks ;;
      call fv avs kvs
  | ListE es =>
      vs <- mapM eval es ;; ret (VList vs)
  | TupleE es =>
      vs <- mapM eval es ;; ret (VTuple vs)
  | DictE items =>
      kvs <- mapM (fun ka =>
                     k <- eval (fst ka) ;; v <- eval (snd ka) ;; ret (k, v))
                  items ;;
      ret (VDict kvs)
  | BinOp l op r =>
      lv <- eval l ;; rv <- eval r ;; ret (VBin lv op rv)
  | IfExp _ _ _ => unsupported
  | Lambda ps b => ret (VFunc "<lambda>" ps [Return b])
  end.

Fixpoint exec (s : stmt) : M unit :=
  match s with
  | Import m a => set_global a (VModule m)
  | Assign (Name x) e => v <- eval e ;; set_global x v
  | Assign _ _ => unsupported
  | Expr e => _ <- eval e ;; ret tt
  | FunctionDef f ps body => set_global f (VFunc f ps body)
  | Try body handler => catch (seqM exec body) (seqM exec handler)
  | Raise e => v <- eval e ;; throw (Raised v)
  | Return _ | If _ _ _ | While _ _ | For _ _ _ | With _ _ | Assert _ =>
      unsupported
  end.

Definition exec_block (b : list stmt) : M unit := seqM exec b.

(** How a top-to-bottom run of the cells ends. *)
Inductive outcome : Type :=
| Finished (st : state)
| Failed (cell_index : nat) (e : exn) (st : state)
| Stuck (cell_index : nat) (st : state).

(** Cells run in order from cell number [i]; an exception that leaves a
    cell ends the run there. *)
Fixpoint run_from (i : nat) (nb : notebook) (st : state) : outcome :=
  match nb with
  | [] => Finished st
  | c :: nb' =>
      match exec_block (source_of c) st with
      | (Ok _, st') => run_from (S i) nb' st'
      | (Exn e, st') => Failed i e st'
      | (Unsupported, st') => Stuck i st'
      end
  end.

Definition initial : state := State ∅ [].

Definition run (nb : notebook) : outcome := run_from 0 nb initial.

End Oracle.

(** Two computations agree up to [K] calls: whenever the first ends with
    at most [K] calls made, the second ends the same way; and the first
    never shortens the trace. *)
Definition agree_upto (K : nat) {A} (m1 m2 : M A) : Prop :=
  forall st res st', m1 st = (res, st') ->
    length (trace st) <= length (trace st')
    /\ (length (trace st') <= K -> m2 st = (res, st')).

(** The calls performed before the run ended. *)
Definition calls (o : outcome) : list event :=
  match o with
  | Finished st | Failed _ _ st | Stuck _ st => trace st
  end.

Definition never : nat -> bool := fun _ => false.

(** The run in which no library call raises. *)
Definition normal_run : outcome := run never Notebook.cells.

(** The global names bound when that run ends. *)
Definition final_globals : gmap string value :=
  match normal_run with
  | Finished st => globals st
  | _ => ∅
  end.

End Run.

(** ** The five steps of the notebook *)

Module Steps.

Import Run.

Inductive step : Type :=
| Subsystems     (* scq.Transmon, scq.Oscillator *)
| Assembly       (* scq.HilbertSpace([...]) *)
| Interactions   (* hilbertspace.add_interaction *)
| Sweep          (* scq.ParameterSweep *)
| Explorer.      (* scq.Explorer *)

Definition number (s : step) : nat :=
  match s with
  | Subsystems => 1
  | Assembly => 2
  | Interactions => 3
  | Sweep => 4
  | Explorer => 5
  end.

Definition step_eqb (a b : step) : bool := Nat.eqb (number a) (number b).

Definition scq_step (class : string) : option step :=
  if String.eqb class "Transmon" then Some Subsystems
  else if String.eqb class "Oscillator" then Some Subsystems
  else if String.eqb class "HilbertSpace" then Some Assembly
  else if String.eqb class "ParameterSweep" then Some Sweep
  else if String.eqb class "Explorer" then Some Explorer
  else None.

(** The step a call belongs to: a constructor of the [scqubits] module, or
    the [add_interaction] method of an object a library call returned.
    Every other call is auxiliary. *)
Definition step_of (e : event) : option step :=
  match callee e with
  | VGet (VModule m) class =>
      if String.eqb m "scqubits" then scq_step class else None
  | VGet (VObj _) method =>
      if String.eqb method "add_interaction" then Some Interactions else None
  | _ => None
  end.

Definition steps (tr : list event) : list step := omap step_of tr.

Definition in_step (s : step) (e : event) : bool :=
  match step_of e with
  | Some s' => step_eqb s s'
  | None => false
  end.

(** The calls of step [s], in the order they are made. *)
Definition calls_of (s : step) (tr : list event) : list event :=
  List.filter (in_step s) tr.

Definition count_calls (s : step) (tr : list event) : nat :=
  length (calls_of s tr).

Definition auxiliary (tr : list event) : list event :=
  filter (fun e => step_of e = None) tr.

(** Where a callee comes from. *)
Inductive origin : Type :=
| FromModule (m : string)
| FromObject (n : nat)
| FromBuiltin (b : string)
| FromNotebook.

Fixpoint origin_of (v : value) : origin :=
  match v with
  | VGet v' _ => origin_of v'
  | VModule m => FromModule m
  | VObj n => FromObject n
  | VBuiltin b => FromBuiltin b
  | VBin l _ _ => origin_of l
  | _ => FromNotebook
  end.

(** A call into an imported library: a function of one of its modules, or
    a method of an object that an earlier call returned. *)
Definition into_library (libs : list string) (e : event) : bool :=
  match origin_of (callee e) with
  | FromModule m => bool_decide (m ∈ libs)
  | FromObject _ => true
  | FromBuiltin _ | FromNotebook => false
  end.

Definition is_builtin_call (b : string) (e : event) : bool :=
  match callee e with
  | VBuiltin b' => String.eqb b b'
  | _ => false
  end.


(** The value a call passes for keyword [k]. *)
Fixpoint assoc (k : string) (kvs : list (string * value)) : option value :=
  match kvs with
  | [] => None
  | (k', v) :: kvs' => if String.eqb k k' then Some v else assoc k kvs'
  end.

Definition keyword (k : string) (e : event) : option value :=
  assoc k (kwargs e).

(** The first call of step [s] in a trace. *)
Definition first_call (s : step) (tr : list event) : option event :=
  find (in_step s) tr.

(** The function the notebook hands to the sweep as its update callback. *)
Definition callback : option value :=
  match first_call Sweep (calls normal_run) with
  | Some e => keyword "update_hilbertspace" e
  | None => None
  end.

End Steps.

(** ** numpy, as far as the notebook uses it

    numpy is external to the notebook.  [linspace start stop num] follows
    its documented contract for [endpoint=True] and [num >= 2]: the samples
    [start + i * step] for [i = 0 .. num-1] with
    [step = (stop - start) / (num - 1)], here in exact rational arithmetic;
    [pi], [cos] and [abs] are read as the real constant and functions. *)

Module Numpy.


Definition pi : R := PI.
Definition cos (x : R) : R := Rtrigo_def.cos x.
Definition abs (x : R) : R := Rabs x.

End Numpy.

(** ** The update callback on real numbers

    The subsystem objects live in a store shared with the library: an
    object is the number of the call that created it, and the store maps an
    object and an attribute name to the attribute's value.  Numbers are
    real numbers. *)

Module Callback.

Import Run.

Definition ref : Type := nat.

Inductive scalar : Type :=
| SInt (z : Z)
| SFloat (x : R)
| SNone.

Abbreviation heap := (gmap (ref * string) scalar).

Definition getattr (o : ref) (a : string) (h : heap) : option scalar :=
  h !! (o, a).

Definition setattr (o : ref) (a : string) (v : scalar) (h : heap) : heap :=
  <[(o, a) := v]> h.

(** The objects the notebook binds to [tmon1], [tmon2] and [resonator]:
    the results of its first three calls. *)
Definition tmon1 : ref := 0.
Definition tmon2 : ref := 1.
Definition resonator : ref := 2.

(** [update_hilbertspace(param_val)], statement by statement. *)
Definition update_hilbertspace (param_val : R) (h : heap) : heap :=
  let h :=
    setattr tmon1 "EJ"
      (SFloat (30 * Numpy.abs (Numpy.cos (Numpy.pi * param_val)))) h in
  setattr tmon2 "EJ"
    (SFloat (40 * Numpy.abs (Numpy.cos (Numpy.pi * param_val * 2)))) h.

(** The value the first statement assigns to [tmon1.EJ]. *)
Definition EJ1 (param_val : R) : R :=
  30 * Numpy.abs (Numpy.cos (Numpy.pi * param_val)).

(** The value the second statement assigns to [tmon2.EJ]. *)
Definition EJ2 (param_val : R) : R :=
  40 * Numpy.abs (Numpy.cos (Numpy.pi * param_val * 2)).

(** *** The same function, obtained by running the body the notebook
    defines *)

Inductive rvalue : Type :=
| RNum (x : R)
| RRef (o : ref)
| RModule (m : string)
| RFun (m f : string).

Definition global_of (g : gmap string value) (x : string) : option rvalue :=
  match g !! x with
  | Some (VObj n) => Some (RRef n)
  | Some (VModule m) => Some (RModule m)
  | _ => None
  end.

Fixpoint local_of (ls : list (string * R)) (x : string) : option R :=
  match ls with
  | [] => None
  | (y, v) :: ls' => if String.eqb x y then Some v else local_of ls' x
  end.

Definition numpy_attr (a : string) : option rvalue :=
  if String.eqb a "pi" then Some (RNum Numpy.pi)
  else if String.eqb a "cos" then Some (RFun "numpy" "cos")
  else if String.eqb a "abs" then Some (RFun "numpy" "abs")
  else None.

Definition numpy_call (f : string) (x : R) : option R :=
  if String.eqb f "cos" then Some (Numpy.cos x)
  else if String.eqb f "abs" then Some (Numpy.abs x)
  else None.

Definition number_of (s : scalar) : option R :=
  match s with
  | SInt z => Some (IZR z)
  | SFloat x => Some x
  | SNone => None
  end.

Definition arith (op : binop) (x y : R) : option R :=
  match op with
  | Add => Some (x + y)%R
  | Sub => Some (x - y)%R
  | Mult => Some (x * y)%R
  | Div => None
  end.

Section Body.

Variable g : gmap string value.

Fixpoint reval (ls : list (string * R)) (h : heap) (e : expr)
  : option rvalue :=
  match e with
  | Name x =>
      match local_of ls x with
      | Some v => Some (RNum v)
      | None => global_of g x
      end
  | Constant (CInt z) => Some (RNum (IZR z))
  | Constant (CFloat q) => Some (RNum (Q2R q))
  | Attribute v a =>
      match reval ls h v with
      | Some (RModule m) =>
          if String.eqb m "numpy" then numpy_attr a else None
      | Some (RRef o) =>
          match getattr o a h with
          | Some s => RNum <$> number_of s
          | None => None
          end
      | _ => None
      end
  | Call f [a] [] =>
      match reval ls h f, reval ls h a with
      | Some (RFun _ fn), Some (RNum x) => RNum <$> numpy_call fn x
      | _, _ => None
      end
  | BinOp l op r =>
      match reval ls h l, reval ls h r with
      | Some (RNum x), Some (RNum y) => RNum <$> arith op x y
      | _, _ => None
      end
  | _ => None
  end.

Definition rexec (s : stmt) (ls : list (string * R)) (h : heap)
  : option (list (string * R) * heap) :=
  match s with
  | Assign (Attribute o a) e =>
      match reval ls h o, reval ls h e with
      | Some (RRef r), Some (RNum x) => Some (ls, setattr r a (SFloat x) h)
      | _, _ => None
      end
  | Assign (Name x) e =>
      match reval ls h e with
      | Some (RNum v) => Some ((x, v) :: ls, h)
      | _ => None
      end
  | _ => None
  end.

Fixpoint rexec_block (b : list stmt) (ls : list (string * R)) (h : heap)
  : option heap :=
  match b with
  | [] => Some h
  | s :: b' =>
      match rexec s ls h with
      | Some (ls', h') => rexec_block b' ls' h'
      | None => None
      end
  end.

(** The library calls the callback with the current parameter value. *)
Definition invoke (f : value) (param_val : R) (h : heap) : option heap :=
  match f with
  | VFunc _ [p] body => rexec_block body [(p, param_val)] h
  | _ => None
  end.

End Body.

(** *** The store after the constructors

    Each subsystem constructor keeps its keyword arguments as attributes
    of the object it returns (the HilbertSpace printed by the notebook
    lists them). *)

Definition scalar_of (v : value) : scalar :=
  match v with
  | VConst (CInt z) => SInt z
  | VConst (CFloat q) => SFloat (Q2R q)
  | _ => SNone
  end.

Fixpoint store_kwargs (o : ref) (kvs : list (string * value)) (h : heap)
  : heap :=
  match kvs with
  | [] => h
  | (k, v) :: kvs' => store_kwargs o kvs' (setattr o k (scalar_of v) h)
  end.

Fixpoint constructed_from (n : nat) (tr : list event) (h : heap) : heap :=
  match tr with
  | [] => h
  | e :: tr' =>
      constructed_from (S n) tr'
        (match Steps.step_of e with
         | Some Steps.Subsystems => store_kwargs n (kwargs e) h
         | _ => h
         end)
  end.

Definition constructed : heap := constructed_from 0 (calls normal_run) ∅.

(** *** The claim that no range is guaranteed *)



End Callback.

(** ** What the sweep is configured with *)

Module Sweeping.

Import Run Steps.

(** The calls of a trace paired with their numbers. *)
Definition numbered (tr : list event) : list (nat * event) := imap pair tr.

(** The step calls of a trace, each with the number of its call. *)
Definition numbered_steps (tr : list event) : list (nat * step) :=
  omap (fun ie => match step_of (snd ie) with
                  | Some s => Some (fst ie, s)
                  | None => None
                  end) (numbered tr).

(** The sweep call of the normal run. *)
Definition sweep_call : option event := first_call Sweep (calls normal_run).




(** *** The operators an interaction couples *)

Definition is_method_call (tr : list event) (o : nat) (method : string)
  (k : nat) : bool :=
  match tr !! k with
  | Some (Event (VGet (VObj o') m) [] []) =>
      Nat.eqb o o' && String.eqb m method
  | _ => false
  end.

(** [v] is the charge operator of object [t]: the bound method
    [t.n_operator], or the pair [(t.n_operator(), t)]. *)
Definition is_charge_operator (tr : list event) (t : nat) (v : value) : bool :=
  match v with
  | VGet (VObj t') m => Nat.eqb t t' && String.eqb m "n_operator"
  | VTuple [VObj k; VObj t'] =>
      Nat.eqb t t' && is_method_call tr t "n_operator" k
  | _ => false
  end.

(** [v] is the field operator of the oscillator [r]: the bound method
    [r.creation_operator] (completed by [add_hc]), or the pair
    [(r.creation_operator() + r.annihilation_operator(), r)]. *)
Definition is_mode_operator (tr : list event) (r : nat) (v : value) : bool :=
  match v with
  | VGet (VObj r') m => Nat.eqb r r' && String.eqb m "creation_operator"
  | VTuple [VBin (VObj a) Add (VObj b); VObj r'] =>
      Nat.eqb r r'
      && is_method_call tr r "creation_operator" a
      && is_method_call tr r "annihilation_operator" b
  | _ => false
  end.

(** The interaction [e] couples the charge operator of [t] to the field
    operator of [r]. *)
Definition couples (tr : list event) (e : event) (t r : nat) : bool :=
  match keyword "op1" e, keyword "op2" e with
  | Some a, Some b => is_charge_operator tr t a && is_mode_operator tr r b
  | _, _ => false
  end.

(** *** Callees as the notebook writes them *)

Definition callee_of (e : expr) : list expr :=
  match e with
  | Call f _ _ => [f]
  | _ => []
  end.

(** The dotted path of every call expression of the notebook, the body
    of its function included. *)
Definition callee_paths (nb : notebook) : list (option (list string)) :=
  map Syntax.path_of (flat_map callee_of (Syntax.all_exprs nb)).

(** *** Shorthands *)

(** A class of the [scqubits] module. *)
Definition scq_class (c : string) : value := VGet (VModule "scqubits") c.

(** The value of the notebook's [def update_hilbertspace(param_val)]. *)
Definition the_callback : value :=
  VFunc "update_hilbertspace" ["param_val"] Notebook.update_hilbertspace_body.

(** Every step is one library call. *)
Definition single_call_per_step : Prop :=
  forall s : step, count_calls s (calls normal_run) = 1.

(** Every call is a call into an imported library. *)
Definition only_library_calls : Prop :=
  forall e, In e (calls normal_run) ->
            into_library ["numpy"; "scqubits"] e = true.


End Sweeping.

(** ** Dataflow of the cells *)

Module Dataflow.

Import Run Steps Sweeping.

(** Object number [n] occurs in the value [v]. *)
Fixpoint mentions (n : nat) (v : value) : bool :=
  match v with
  | VObj m => Nat.eqb n m
  | VGet v' _ => mentions n v'
  | VList vs | VTuple vs => existsb (mentions n) vs
  | VDict items =>
      existsb (fun kv => mentions n (fst kv) || mentions n (snd kv)) items
  | VBin l _ r => mentions n l || mentions n r
  | _ => false
  end.

(** Object number [n] is the callee, the receiver or an argument of [e]. *)
Definition event_mentions (n : nat) (e : event) : bool :=
  mentions n (callee e)
  || existsb (mentions n) (args e)
  || existsb (fun kv => mentions n (snd kv)) (kwargs e).

(** The subsystems the sweep is told the callback changes: the lists of
    [subsys_update_info]. *)
Definition declared_updates : list value :=
  match sweep_call with
  | Some e =>
      match keyword "subsys_update_info" e with
      | Some (VDict items) =>
          flat_map (fun kv => match snd kv with
                              | VList vs => vs
                              | _ => []
                              end) items
      | _ => []
      end
  | None => []
  end.

Definition names (es : list expr) : list string :=
  flat_map (fun e => match e with Name x => [x] | _ => [] end) es.

(** The names a statement binds. *)
Definition binds (s : stmt) : list string :=
  match s with
  | Import _ a => [a]
  | Assign (Name x) _ => [x]
  | FunctionDef f ps _ => f :: ps
  | For (Name x) _ _ => [x]
  | _ => []
  end.

(** The names a statement reads; the target of a plain assignment is
    written, not read. *)
Definition reads (s : stmt) : list string :=
  match s with
  | Assign (Name _) v => names (Syntax.exprs_of v)
  | For (Name _) i _ => names (Syntax.exprs_of i)
  | _ => names (Syntax.stmt_exprs s)
  end.

Definition bound_names (nb : notebook) : list string :=
  flat_map binds (Syntax.all_stmts nb).

Definition read_names (nb : notebook) : list string :=
  flat_map reads (Syntax.all_stmts nb).

Definition among (l : list string) (x : string) : bool :=
  existsb (String.eqb x) l.

(** Names bound somewhere and read nowhere. *)
Definition never_read (nb : notebook) : list string :=
  List.filter (fun x => negb (among (read_names nb) x)) (bound_names nb).

(** Names read somewhere and bound nowhere in the notebook. *)
Definition never_bound (nb : notebook) : list string :=
  List.filter (fun x => negb (among (bound_names nb) x)) (read_names nb).

End Dataflow.

(** ** The callback under the sweep *)

Module SweepRun.

Import Run Steps Sweeping Callback.

(** The callback called once for each parameter value, in order. *)
Definition successive_calls (ps : list R) (h : heap) : heap :=
  foldl (fun h p => update_hilbertspace p h) h ps.


End SweepRun.

(** * Properties *)

Import Run Steps.

(** ** The callback *)

Section CallbackFacts.

Import Callback.
Local Open Scope R_scope.




Lemma getattr_setattr_eq (o : ref) (a : string) (v : scalar) (h : heap) :
  getattr o a (setattr o a v h) = Some v.
Proof. unfold getattr, setattr. apply lookup_insert_eq. Qed.

Lemma getattr_setattr_ne (o o' : ref) (a a' : string) (v : scalar) (h : heap) :
  (o, a) <> (o', a') ->
  getattr o' a' (setattr o a v h) = getattr o' a' h.
Proof. intros Hne. unfold getattr, setattr. by apply lookup_insert_ne. Qed.

Lemma update_hilbertspace_EJ1 (p : R) (h : heap) :
  getattr tmon1 "EJ" (update_hilbertspace p h) = Some (SFloat (EJ1 p)).
Proof.
  unfold update_hilbertspace.
  rewrite getattr_setattr_ne by (unfold tmon1, tmon2; congruence).
  apply getattr_setattr_eq.
Qed.

Lemma update_hilbertspace_EJ2 (p : R) (h : heap) :
  getattr tmon2 "EJ" (update_hilbertspace p h) = Some (SFloat (EJ2 p)).
Proof. unfold update_hilbertspace. apply getattr_setattr_eq. Qed.

Lemma update_hilbertspace_other (p : R) (h : heap) (o : ref) (a : string) :
  (o, a) <> (tmon1, "EJ") -> (o, a) <> (tmon2, "EJ") ->
  getattr o a (update_hilbertspace p h) = getattr o a h.
Proof.
  intros H1 H2. unfold update_hilbertspace.
  rewrite !getattr_setattr_ne by congruence. reflexivity.
Qed.

Lemma abs_cos_reflect (x : R) :
  Numpy.abs (Numpy.cos (PI - x)) = Numpy.abs (Numpy.cos x).
Proof.
  unfold Numpy.abs, Numpy.cos.
  rewrite Rtrigo_facts.cos_pi_minus. apply Rabs_Ropp.
Qed.


Lemma EJ1_mirror (p : R) : EJ1 (1 - p) = EJ1 p.
Proof.
  unfold EJ1, Numpy.pi.
  replace (PI * (1 - p)) with (PI - PI * p) by lra.
  by rewrite abs_cos_reflect.
Qed.


End CallbackFacts.

Section Refinement.

Import Callback.

Lemma callback_is_update_hilbertspace :
  callback
  = Some (VFunc "update_hilbertspace" ["param_val"]
            Notebook.update_hilbertspace_body).
Proof. vm_compute. reflexivity. Qed.

Lemma global_tmon1 : global_of final_globals "tmon1" = Some (RRef tmon1).
Proof. vm_compute. reflexivity. Qed.

Lemma global_tmon2 : global_of final_globals "tmon2" = Some (RRef tmon2).
Proof. vm_compute. reflexivity. Qed.

Lemma global_np : global_of final_globals "np" = Some (RModule "numpy").
Proof. vm_compute. reflexivity. Qed.

Lemma global_param_val : global_of final_globals "param_val" = None.
Proof. vm_compute. reflexivity. Qed.

Lemma invoke_update_hilbertspace (p : R) (h : heap) :
  invoke final_globals
    (VFunc "update_hilbertspace" ["param_val"]
       Notebook.update_hilbertspace_body) p h
  = Some (update_hilbertspace p h).
Proof.
  unfold invoke, Notebook.update_hilbertspace_body, Notebook.np, Py.int.
  repeat (cbn [rexec_block rexec reval local_of numpy_attr numpy_call arith
               fmap option_fmap option_map
               String.eqb Ascii.eqb Bool.eqb];
          rewrite ?global_tmon1, ?global_tmon2, ?global_np).
  reflexivity.
Qed.

End Refinement.

Section CallbackClaims.

Import Callback.
Local Open Scope R_scope.

(** The attributes the claim names, spelled out. *)
Lemma update_hilbertspace_keeps_named (p : R) (h : heap) :
  Forall (fun a =>
            getattr tmon1 a (update_hilbertspace p h) = getattr tmon1 a h
            /\ getattr tmon2 a (update_hilbertspace p h) = getattr tmon2 a h)
         ["EC"; "ng"; "ncut"; "truncated_dim"]
  /\ forall a, getattr resonator a (update_hilbertspace p h)
               = getattr resonator a h.
Proof.
  split.
  - repeat constructor; apply update_hilbertspace_other;
      unfold tmon1, tmon2; congruence.
  - intros a. apply update_hilbertspace_other;
      unfold resonator, tmon1, tmon2; congruence.
Qed.

(** C8: for every parameter value, a call of update_hilbertspace changes
    only the EJ attribute of tmon1 and the EJ attribute of tmon2; every
    other attribute of every object (EC, ng, ncut, truncated_dim of the two
    transmons, and all attributes of the resonator) reads the same before
    and after the call. *)
Theorem update_hilbertspace_frame (p : R) (h : heap) (o : ref) (a : string) :
  (o, a) <> (tmon1, "EJ") ->
  (o, a) <> (tmon2, "EJ") ->
  getattr o a (update_hilbertspace p h) = getattr o a h.
Proof.
  intros H1 H2. unfold update_hilbertspace.
  rewrite !getattr_setattr_ne by congruence. reflexivity.
Qed.

Lemma update_hilbertspace_frame_witness :
  getattr tmon1 "EC" (update_hilbertspace (1 / 2) constructed)
  = getattr tmon1 "EC" constructed
  /\ getattr resonator "E_osc" (update_hilbertspace (1 / 2) constructed)
     = getattr resonator "E_osc" constructed.
Proof.
  split.
  - apply (update_hilbertspace_frame (1 / 2) constructed tmon1 "EC");
      vm_compute; congruence.
  - apply (update_hilbertspace_frame (1 / 2) constructed resonator "E_osc");
      vm_compute; congruence.
Defined.





End CallbackClaims.

(** ** The run of the cells *)

Section RunClaims.

Import Sweeping.


(** C1: run top to bottom, the notebook makes the calls of its five steps
    in this order: scq.Transmon (bound to tmon1), scq.Transmon (tmon2),
    scq.Oscillator (resonator); then scq.HilbertSpace on the list of those
    three objects; then two add_interaction calls on that HilbertSpace;
    then scq.ParameterSweep on that HilbertSpace with update_hilbertspace
    as callback; last scq.Explorer on that sweep.  The step numbers never
    decrease along the run. *)
Theorem notebook_call_order :
  (exists st, normal_run = Finished st)
  /\ numbered_steps (calls normal_run)
     = [ (0, Subsystems); (1, Subsystems); (2, Subsystems);
         (4, Assembly);
         (9, Interactions); (10, Interactions);
         (12, Sweep);
         (13, Explorer) ]
  /\ StronglySorted le (map number (steps (calls normal_run)))
  /\ map callee (calls_of Subsystems (calls normal_run))
     = [scq_class "Transmon"; scq_class "Transmon"; scq_class "Oscillator"]
  /\ final_globals !! "tmon1" = Some (VObj 0)
  /\ final_globals !! "tmon2" = Some (VObj 1)
  /\ final_globals !! "resonator" = Some (VObj 2)
  /\ calls normal_run !! 4
     = Some (Event (scq_class "HilbertSpace")
                   [VList [VObj 0; VObj 1; VObj 2]] [])
  /\ map callee (calls_of Interactions (calls normal_run))
     = [VGet (VObj 4) "add_interaction"; VGet (VObj 4) "add_interaction"]
  /\ (exists e, calls normal_run !! 12 = Some e
        /\ callee e = scq_class "ParameterSweep"
        /\ keyword "hilbertspace" e = Some (VObj 4)
        /\ keyword "update_hilbertspace" e = Some the_callback)
  /\ calls normal_run !! 13
     = Some (Event (scq_class "Explorer") [] [("sweep", VObj 12)])
  /\ length (calls normal_run) = 14.
Proof.
  split; [eexists; vm_compute; reflexivity|].
  split; [vm_compute; reflexivity|].
  split.
  { replace (map number (steps (calls normal_run)))
      with [1; 1; 1; 2; 3; 3; 4; 5] by (vm_compute; reflexivity).
    repeat (constructor; [|repeat constructor; lia]). constructor. }
  split_and!; try (vm_compute; reflexivity).
  eexists. split_and!; vm_compute; reflexivity.
Qed.

(** C2 fails as stated: step (1) is three calls, not one. *)
Lemma steps_are_not_single_calls : ~ single_call_per_step.
Proof.
  intros H. specialize (H Subsystems). vm_compute in H. discriminate H.
Qed.

(** C2, amended: the notebook authors no branching, looping or
    exception-handling statement, no conditional expression and no lambda.
    Steps (4) and (5) are one library call each and step (2) is one
    scq.HilbertSpace call; step (1) is three constructor calls and step (3)
    two add_interaction calls.  Six further calls are made around the steps
    (HilbertSpace.create, print, three operator getters, np.linspace).  The
    notebook defines one function, update_hilbertspace, and hands it to
    step (4) as its update callback. *)
Theorem steps_and_authored_logic :
  map (fun s => count_calls s (calls normal_run))
      [Subsystems; Assembly; Interactions; Sweep; Explorer]
  = [3; 1; 2; 1; 1]
  /\ map callee (auxiliary (calls normal_run))
     = [ VGet (scq_class "HilbertSpace") "create";
         VBuiltin "print";
         VGet (VObj 0) "n_operator";
         VGet (VObj 2) "creation_operator";
         VGet (VObj 2) "annihilation_operator";
         VGet (VModule "numpy") "linspace" ]
  /\ List.filter Syntax.is_control_flow (Syntax.all_stmts Notebook.cells) = []
  /\ List.filter Syntax.is_handler (Syntax.all_stmts Notebook.cells) = []
  /\ List.filter Syntax.is_branching_expr (Syntax.all_exprs Notebook.cells) = []
  /\ List.filter Syntax.is_lambda (Syntax.all_exprs Notebook.cells) = []
  /\ Syntax.defined_functions Notebook.cells = ["update_hilbertspace"]
  /\ callback = Some the_callback.
Proof. split_and!; vm_compute; reflexivity. Qed.

(** C5: the composite system has exactly three subsystems, two Transmon
    objects and one Oscillator; the HilbertSpace that receives both
    interactions and is handed to the sweep is the one built from the list
    [tmon1, tmon2, resonator]; each of the two interactions couples the
    charge operator (n_operator) of one transmon to the field operator of
    the one resonator. *)
Theorem composite_system :
  map callee (calls_of Subsystems (calls normal_run))
  = [scq_class "Transmon"; scq_class "Transmon"; scq_class "Oscillator"]
  /\ final_globals !! "tmon1" = Some (VObj 0)
  /\ final_globals !! "tmon2" = Some (VObj 1)
  /\ final_globals !! "resonator" = Some (VObj 2)
  /\ calls_of Assembly (calls normal_run)
     = [Event (scq_class "HilbertSpace") [VList [VObj 0; VObj 1; VObj 2]] []]
  /\ calls normal_run !! 4
     = Some (Event (scq_class "HilbertSpace")
                   [VList [VObj 0; VObj 1; VObj 2]] [])
  /\ final_globals !! "hilbertspace" = Some (VObj 4)
  /\ calls_of Interactions (calls normal_run)
     = [ Event (VGet (VObj 4) "add_interaction") []
           [ ("g", VConst (CFloat 0.1));
             ("op1", VTuple [VObj 6; VObj 0]);
             ("op2", VTuple [VBin (VObj 7) Add (VObj 8); VObj 2]) ];
         Event (VGet (VObj 4) "add_interaction") []
           [ ("g", VConst (CFloat 0.2));
             ("op1", VGet (VObj 1) "n_operator");
             ("op2", VGet (VObj 2) "creation_operator");
             ("add_hc", VConst (CBool true)) ] ]
  /\ map (fun e => couples (calls normal_run) e 0 2)
         (calls_of Interactions (calls normal_run)) = [true; false]
  /\ map (fun e => couples (calls normal_run) e 1 2)
         (calls_of Interactions (calls normal_run)) = [false; true]
  /\ (exists e, sweep_call = Some e
        /\ keyword "hilbertspace" e = Some (VObj 4)).
Proof.
  split_and!; try (vm_compute; reflexivity).
  eexists. split; vm_compute; reflexivity.
Qed.


(** C7 fails as stated: the notebook also calls the builtin print. *)
Lemma print_is_not_a_library_call : ~ only_library_calls.
Proof.
  intros H.
  specialize (H (Event (VBuiltin "print") [VObj 4] [])).
  assert (Hin : In (Event (VBuiltin "print") [VObj 4] []) (calls normal_run)).
  { vm_compute. do 5 right. left. reflexivity. }
  specialize (H Hin). vm_compute in H. discriminate H.
Qed.

(** C7, amended: the notebook imports numpy and scqubits and nothing else;
    it calls no file, network or console-input function; every call it
    makes is a function of those two modules or a method of an object they
    returned, except one call of the builtin print, which writes the
    description of the HilbertSpace to the cell's output. *)
Theorem pure_library_consumer :
  Syntax.imported_modules Notebook.cells = ["numpy"; "scqubits"]
  /\ forallb (fun e => into_library ["numpy"; "scqubits"] e
                       || is_builtin_call "print" e)
             (calls normal_run) = true
  /\ List.filter (is_builtin_call "print") (calls normal_run)
     = [Event (VBuiltin "print") [VObj 4] []]
  /\ callee_paths Notebook.cells
     = [ Some ["scq"; "Transmon"]; Some ["scq"; "Transmon"];
         Some ["scq"; "Oscillator"];
         Some ["scq"; "HilbertSpace"; "create"];
         Some ["scq"; "HilbertSpace"];
         Some ["print"];
         Some ["tmon1"; "n_operator"];
         Some ["resonator"; "creation_operator"];
         Some ["resonator"; "annihilation_operator"];
         Some ["hilbertspace"; "add_interaction"];
         Some ["hilbertspace"; "add_interaction"];
         Some ["np"; "linspace"];
         Some ["np"; "abs"]; Some ["np"; "cos"];
         Some ["np"; "abs"]; Some ["np"; "cos"];
         Some ["scq"; "ParameterSweep"];
         Some ["scq"; "Explorer"] ]
  /\ final_globals !! "np" = Some (VModule "numpy")
  /\ final_globals !! "scq" = Some (VModule "scqubits").
Proof. split_and!; vm_compute; reflexivity. Qed.

End RunClaims.

(** ** Failures

    Induction over the syntax, with the lists nested in it. *)

Section Induction.

Variable P : expr -> Prop.
Hypothesis HName : forall x, P (Name x).
Hypothesis HConstant : forall c, P (Constant c).
Hypothesis HAttribute : forall v a, P v -> P (Attribute v a).
Hypothesis HCall : forall f es ks,
  P f -> Forall P es -> Forall (fun ka => P (snd ka)) ks -> P (Call f es ks).
Hypothesis HListE : forall es, Forall P es -> P (ListE es).
Hypothesis HTupleE : forall es, Forall P es -> P (TupleE es).
Hypothesis HDictE : forall items,
  Forall (fun ka => P (fst ka) /\ P (snd ka)) items -> P (DictE items).
Hypothesis HBinOp : forall l op r, P l -> P r -> P (BinOp l op r).
Hypothesis HIfExp : forall c a b, P (IfExp c a b).
Hypothesis HLambda : forall ps b, P (Lambda ps b).

Lemma expr_nested_ind : forall e : expr, P e.
Proof.
  exact (fix expr_nested_ind (e : expr) : P e :=
  match e with
  | Name x => HName x
  | Constant c => HConstant c
  | Attribute v a => HAttribute v a (expr_nested_ind v)
  | Call f es ks =>
      HCall f es ks (expr_nested_ind f)
        ((fix go (l : list expr) : Forall P l :=
            match l with
            | [] => @List.Forall_nil _ P
            | a :: l' => @List.Forall_cons _ P a l' (expr_nested_ind a) (go l')
            end) es)
        ((fix go (l : list (string * expr)) : Forall (fun ka => P (snd ka)) l :=
            match l with
            | [] => @List.Forall_nil _ _
            | ka :: l' =>
                @List.Forall_cons _ (fun ka => P (snd ka)) ka l'
                  (expr_nested_ind (snd ka)) (go l')
            end) ks)
  | ListE es =>
      HListE es
        ((fix go (l : list expr) : Forall P l :=
            match l with
            | [] => @List.Forall_nil _ P
            | a :: l' => @List.Forall_cons _ P a l' (expr_nested_ind a) (go l')
            end) es)
  | TupleE es =>
      HTupleE es
        ((fix go (l : list expr) : Forall P l :=
            match l with
            | [] => @List.Forall_nil _ P
            | a :: l' => @List.Forall_cons _ P a l' (expr_nested_ind a) (go l')
            end) es)
  | DictE items =>
      HDictE items
        ((fix go (l : list (expr * expr))
            : Forall (fun ka => P (fst ka) /\ P (snd ka)) l :=
            match l with
            | [] => @List.Forall_nil _ _
            | ka :: l' =>
                @List.Forall_cons _ (fun ka => P (fst ka) /\ P (snd ka)) ka l'
                  (conj (expr_nested_ind (fst ka)) (expr_nested_ind (snd ka)))
                  (go l')
            end) items)
  | BinOp l op r => HBinOp l op r (expr_nested_ind l) (expr_nested_ind r)
  | IfExp c a b => HIfExp c a b
  | Lambda ps b => HLambda ps b
  end).
Qed.

End Induction.

Section StmtInduction.

Variable P : stmt -> Prop.
Hypothesis HImport : forall m a, P (Import m a).
Hypothesis HAssign : forall t v, P (Assign t v).
Hypothesis HExpr : forall v, P (Expr v).
Hypothesis HFunctionDef : forall f ps body, P (FunctionDef f ps body).
Hypothesis HReturn : forall v, P (Return v).
Hypothesis HIf : forall c a b, P (If c a b).
Hypothesis HWhile : forall c b, P (While c b).
Hypothesis HFor : forall t i b, P (For t i b).
Hypothesis HTry : forall body handler,
  Forall P body -> Forall P handler -> P (Try body handler).
Hypothesis HWith : forall c b, P (With c b).
Hypothesis HRaise : forall e, P (Raise e).
Hypothesis HAssert : forall e, P (Assert e).

Lemma stmt_nested_ind : forall s : stmt, P s.
Proof.
  exact (fix stmt_nested_ind (s : stmt) : P s :=
  let block := fix block (l : list stmt) : Forall P l :=
    match l with
    | [] => @List.Forall_nil _ P
    | a :: l' => @List.Forall_cons _ P a l' (stmt_nested_ind a) (block l')
    end in
  match s with
  | Import m a => HImport m a
  | Assign t v => HAssign t v
  | Expr v => HExpr v
  | FunctionDef f ps body => HFunctionDef f ps body
  | Return v => HReturn v
  | If c a b => HIf c a b
  | While c b => HWhile c b
  | For t i b => HFor t i b
  | Try body handler => HTry body handler (block body) (block handler)
  | With c b => HWith c b
  | Raise e => HRaise e
  | Assert e => HAssert e
  end).
Qed.

End StmtInduction.

Section Agreement.

Variables (r1 r2 : nat -> bool) (K : nat).
Hypothesis agree_below : forall m, m < K -> r1 m = r2 m.

Local Abbreviation agree := (agree_upto K).

Lemma agree_quiet {A} (m : M A) :
  (forall st, trace (snd (m st)) = trace st) -> agree m m.
Proof.
  unfold agree_upto. intros Hq st res st' E. split; [|done].
  specialize (Hq st). rewrite E in Hq. simpl in Hq. by rewrite Hq.
Qed.

Lemma agree_bind {A B} (m1 m2 : M A) (k1 k2 : A -> M B) :
  agree m1 m2 -> (forall a, agree (k1 a) (k2 a)) ->
  agree (bind m1 k1) (bind m2 k2).
Proof.
  intros Hm Hk st res st' E. unfold bind in *.
  destruct (m1 st) as [[a|e|] st1] eqn:E1.
  - destruct (Hm _ _ _ E1) as [Hle1 Hm2].
    destruct (Hk a _ _ _ E) as [Hle2 Hk2].
    split; [lia|]. intros HK.
    rewrite Hm2 by lia. by apply Hk2.
  - injection E as <- <-. destruct (Hm _ _ _ E1) as [Hle1 Hm2].
    split; [done|]. intros HK. by rewrite Hm2.
  - injection E as <- <-. destruct (Hm _ _ _ E1) as [Hle1 Hm2].
    split; [done|]. intros HK. by rewrite Hm2.
Qed.

Lemma agree_catch (m1 m2 h1 h2 : M unit) :
  agree m1 m2 -> agree h1 h2 -> agree (catch m1 h1) (catch m2 h2).
Proof.
  intros Hm Hh st res st' E. unfold catch in *.
  destruct (m1 st) as [[a|e|] st1] eqn:E1.
  - injection E as <- <-. destruct (Hm _ _ _ E1) as [Hle1 Hm2].
    split; [done|]. intros HK. by rewrite Hm2.
  - destruct (Hm _ _ _ E1) as [Hle1 Hm2].
    destruct (Hh _ _ _ E) as [Hle2 Hh2].
    split; [lia|]. intros HK. rewrite Hm2 by lia. by apply Hh2.
  - injection E as <- <-. destruct (Hm _ _ _ E1) as [Hle1 Hm2].
    split; [done|]. intros HK. by rewrite Hm2.
Qed.

Lemma agree_call (f : value) (avs : list value) (kvs : list (string * value)) :
  agree (call r1 f avs kvs) (call r2 f avs kvs).
Proof.
  intros st res st' E. unfold call in *.
  destruct f; try (injection E as <- <-; split; done).
  all: destruct (r1 (length (trace st))) eqn:Er;
    injection E as <- <-; simpl; rewrite length_app; simpl;
    (split; [lia|]); intros HK;
    rewrite <- agree_below by lia; by rewrite Er.
Qed.

Lemma agree_mapM {A B} (f1 f2 : A -> M B) (l : list A) :
  Forall (fun a => agree (f1 a) (f2 a)) l -> agree (mapM f1 l) (mapM f2 l).
Proof.
  induction 1 as [|a l Ha Hl IH]; simpl.
  - by apply agree_quiet.
  - apply agree_bind; [done|]. intros v.
    apply agree_bind; [done|]. intros vs. by apply agree_quiet.
Qed.

Lemma agree_seqM {A} (f1 f2 : A -> M unit) (l : list A) :
  Forall (fun a => agree (f1 a) (f2 a)) l -> agree (seqM f1 l) (seqM f2 l).
Proof.
  induction 1 as [|a l Ha Hl IH]; simpl.
  - by apply agree_quiet.
  - apply agree_bind; [done|]. intros _. done.
Qed.

Lemma agree_lookup_name (x : string) : agree (lookup_name x) (lookup_name x).
Proof.
  apply agree_quiet. intros st. unfold lookup_name.
  destruct (globals st !! x); [done|]. by case_bool_decide.
Qed.

Lemma eval_agree (e : expr) : agree (eval r1 e) (eval r2 e).
Proof.
  induction e using expr_nested_ind; simpl.
  - apply agree_lookup_name.
  - by apply agree_quiet.
  - apply agree_bind; [done|]. intros ?. by apply agree_quiet.
  - apply agree_bind; [done|]. intros ?.
    apply agree_bind; [by apply agree_mapM|]. intros ?.
    apply agree_bind.
    + apply agree_mapM. eapply Forall_impl; [eassumption|].
      intros ka Hka. apply agree_bind; [done|]. intros ?. by apply agree_quiet.
    + intros ?. apply agree_call.
  - apply agree_bind; [by apply agree_mapM|]. intros ?. by apply agree_quiet.
  - apply agree_bind; [by apply agree_mapM|]. intros ?. by apply agree_quiet.
  - apply agree_bind.
    + apply agree_mapM. eapply Forall_impl; [eassumption|].
      intros ka [Hk Hv]. apply agree_bind; [done|]. intros ?.
      apply agree_bind; [done|]. intros ?. by apply agree_quiet.
    + intros ?. by apply agree_quiet.
  - apply agree_bind; [done|]. intros ?.
    apply agree_bind; [done|]. intros ?. by apply agree_quiet.
  - by apply agree_quiet.
  - by apply agree_quiet.
Qed.

Lemma exec_agree (s : stmt) : agree (exec r1 s) (exec r2 s).
Proof.
  induction s using stmt_nested_ind; simpl;
    try (by apply agree_quiet).
  - destruct t; try (by apply agree_quiet).
    apply agree_bind; [apply eval_agree|]. intros ?. by apply agree_quiet.
  - apply agree_bind; [apply eval_agree|]. intros ?. by apply agree_quiet.
  - apply agree_catch; by apply agree_seqM.
  - apply agree_bind; [apply eval_agree|]. intros ?. by apply agree_quiet.
Qed.

Lemma exec_block_agree (b : list stmt) :
  agree (exec_block r1 b) (exec_block r2 b).
Proof.
  apply agree_seqM. apply Forall_forall. intros s _. apply exec_agree.
Qed.

Lemma run_from_grows (nb : notebook) (i : nat) (st : state) :
  length (trace st) <= length (calls (run_from r1 i nb st)).
Proof.
  revert i st. induction nb as [|c nb IH]; simpl; intros i st; [done|].
  destruct (exec_block r1 (source_of c) st) as [[a|e|] st1] eqn:E1;
    destruct (exec_block_agree _ _ _ _ E1) as [Hle _]; simpl; [|done..].
  specialize (IH (S i) st1). lia.
Qed.

Lemma run_from_agree (nb : notebook) (i : nat) (st : state) :
  length (calls (run_from r1 i nb st)) <= K ->
  run_from r2 i nb st = run_from r1 i nb st.
Proof.
  revert i st. induction nb as [|c nb IH]; simpl; intros i st HK; [done|].
  destruct (exec_block r1 (source_of c) st) as [[a|e|] st1] eqn:E1;
    destruct (exec_block_agree _ _ _ _ E1) as [Hle Hm2]; simpl in HK.
  - pose proof (run_from_grows nb (S i) st1) as Hmono.
    rewrite Hm2 by lia. by apply IH.
  - by rewrite Hm2.
  - by rewrite Hm2.
Qed.

End Agreement.

Lemma find_seq_first (f : nat -> bool) (N a n : nat) :
  List.find f (seq a N) = Some n ->
  a <= n < a + N /\ f n = true /\ forall m, a <= m < n -> f m = false.
Proof.
  revert a. induction N as [|N IH]; simpl; intros a Hfind; [done|].
  destruct (f a) eqn:Ha.
  - injection Hfind as <-. split_and!; [lia..|done|]. intros m Hm. lia.
  - apply IH in Hfind as (Hr & Hn & Hpre). split_and!; [lia..|done|].
    intros m Hm. destruct (decide (m = a)) as [->|Hne]; [done|].
    apply Hpre. lia.
Qed.

(** Call number [n] raises and nothing else does. *)
Lemma run_with_single_failure (n : nat) :
  n < 14 ->
  exists (c : nat) (st : state),
    run (Nat.eqb n) Notebook.cells = Failed c (LibraryError n) st
    /\ trace st = take (S n) (calls normal_run).
Proof.
  intros Hn.
  do 14 (destruct n as [|n];
         [eexists _, _; split; vm_compute; reflexivity|]).
  lia.
Qed.

(** A handler does change the outcome: the same failing call, wrapped in
    try/except, no longer ends the run. *)
Lemma handler_would_catch :
  (exists st,
     run (Nat.eqb 0)
       [Code [ Import "scqubits" "scq";
               Expr (Call (Notebook.scq "Transmon") [] []) ]]
     = Failed 0 (LibraryError 0) st)
  /\ (exists st,
        run (Nat.eqb 0)
          [Code [ Import "scqubits" "scq";
                  Try [Expr (Call (Notebook.scq "Transmon") [] [])] [] ]]
        = Finished st).
Proof. split; eexists; vm_compute; reflexivity. Qed.

Section Failures.

Variable raises : nat -> bool.

(** C4: the notebook has no try/except and no with statement, in a cell or
    in the body of its function, and no statement that branches; so when a
    library call raises, the exception leaves the cell: the run ends at
    that call as a failure carrying that call's error, and no later call
    is made.  Here [n] is the first of the notebook's calls that raises. *)
Theorem failures_propagate (n : nat) :
  List.find raises (seq 0 (length (calls normal_run))) = Some n ->
  List.filter Syntax.is_handler (Syntax.all_stmts Notebook.cells) = []
  /\ List.filter Syntax.is_control_flow (Syntax.all_stmts Notebook.cells) = []
  /\ exists (c : nat) (st : state),
       run raises Notebook.cells = Failed c (LibraryError n) st
       /\ trace st = take (S n) (calls normal_run).
Proof.
  intros Hfind.
  split; [vm_compute; reflexivity|].
  split; [vm_compute; reflexivity|].
  apply find_seq_first in Hfind as (Hlt & Hn & Hpre).
  replace (length (calls normal_run)) with 14 in Hlt by (vm_compute; reflexivity).
  destruct (run_with_single_failure n) as (c & st & Hrun & Htr); [lia|].
  exists c, st. split; [|done].
  rewrite <- Hrun. unfold run.
  apply (run_from_agree (Nat.eqb n) raises (S n)).
  - intros m Hm. destruct (decide (m = n)) as [->|Hne].
    + by rewrite Nat.eqb_refl.
    + rewrite Hpre by lia. apply Nat.eqb_neq. lia.
  - fold (run (Nat.eqb n) Notebook.cells). rewrite Hrun. simpl.
    rewrite Htr, length_take. lia.
Qed.

End Failures.

Lemma failures_propagate_witness :
  List.find (Nat.eqb 12) (seq 0 (length (calls normal_run))) = Some 12
  /\ List.filter Syntax.is_handler (Syntax.all_stmts Notebook.cells) = []
  /\ List.filter Syntax.is_control_flow (Syntax.all_stmts Notebook.cells) = []
  /\ exists (c : nat) (st : state),
       run (Nat.eqb 12) Notebook.cells = Failed c (LibraryError 12) st
       /\ trace st = take 13 (calls normal_run).
Proof.
  split; [vm_compute; reflexivity|].
  apply (failures_propagate (Nat.eqb 12) 12). vm_compute. reflexivity.
Defined.

(** * Further properties *)

(** ** The callback as a function of the parameter *)

Section CallbackAlgebra.
Import Callback Sweeping SweepRun.
Local Open Scope R_scope.

Lemma update_hilbertspace_lookup (p : R) (h : heap) (o : ref) (a : string) :
  getattr o a (update_hilbertspace p h)
  = if decide ((o, a) = (tmon2, "EJ")) then Some (SFloat (EJ2 p))
    else if decide ((o, a) = (tmon1, "EJ")) then Some (SFloat (EJ1 p))
    else getattr o a h.
Proof.
  repeat case_decide.
  - injection H as -> ->. apply update_hilbertspace_EJ2.
  - injection H0 as -> ->. apply update_hilbertspace_EJ1.
  - by apply update_hilbertspace_other.
Qed.

Lemma heap_ext (h1 h2 : heap) :
  (forall o a, getattr o a h1 = getattr o a h2) -> h1 = h2.
Proof. intros H. apply map_eq. intros [o a]. apply H. Qed.

Lemma update_hilbertspace_twice (p q : R) (h : heap) :
  update_hilbertspace q (update_hilbertspace p h) = update_hilbertspace q h.
Proof.
  apply heap_ext. intros o a. rewrite !update_hilbertspace_lookup.
  repeat case_decide; reflexivity.
Qed.

(** X1: update_hilbertspace overwrites: after any sequence of calls the
    store is the one a single call with the last parameter value gives, so
    nothing of earlier parameter values survives in the store. *)
Theorem last_call_wins (ps : list R) (q : R) (h : heap) :
  successive_calls (ps ++ [q]) h = update_hilbertspace q h.
Proof.
  unfold successive_calls. rewrite foldl_app. simpl.
  revert h. induction ps as [|p ps IH] using rev_ind; intros h; [done|].
  rewrite foldl_app. simpl. rewrite update_hilbertspace_twice. apply IH.
Qed.













(** X6: on the first half of the sweep range tmon1.EJ falls as the
    parameter grows, and on the second half it rises. *)
Theorem EJ1_falls_then_rises (p q : R) :
  0 <= p -> p <= q -> q <= 1 / 2 ->
  EJ1 q <= EJ1 p /\ EJ1 (1 - q) <= EJ1 (1 - p).
Proof.
  intros Hp Hpq Hq. pose proof PI_RGT_0 as Hpi.
  assert (H : EJ1 q <= EJ1 p).
  { unfold EJ1, Numpy.abs, Numpy.cos, Numpy.pi.
    rewrite !Rabs_right.
    - apply Rmult_le_compat_l; [lra|]. apply cos_decr_1; nra.
    - apply Rle_ge, cos_ge_0; nra.
    - apply Rle_ge, cos_ge_0; nra. }
  split; [exact H|]. by rewrite !EJ1_mirror.
Qed.

Lemma EJ1_falls_then_rises_witness :
  EJ1 (1 / 4) <= EJ1 0 /\ EJ1 (1 - 1 / 4) <= EJ1 (1 - 0).
Proof. apply (EJ1_falls_then_rises 0 (1 / 4)); lra. Defined.

End CallbackAlgebra.

Section SweepGrid.
Import Callback Sweeping SweepRun.
Local Open Scope R_scope.







End SweepGrid.

(** ** The run and its dataflow *)

Section RunFacts.

Import Callback Sweeping Dataflow.

Lemma run_first_failure (raises : nat -> bool) (n : nat) :
  List.find raises (seq 0 14) = Some n ->
  exists (c : nat) (st : state),
    run raises Notebook.cells = Failed c (LibraryError n) st
    /\ trace st = take (S n) (calls normal_run).
Proof.
  intros Hfind. apply find_seq_first in Hfind as (Hlt & Hn & Hpre).
  destruct (run_with_single_failure n) as (c & st & Hrun & Htr); [lia|].
  exists c, st. split; [|done].
  rewrite <- Hrun. unfold run.
  apply (run_from_agree (Nat.eqb n) raises (S n)).
  - intros m Hm. destruct (decide (m = n)) as [->|Hne].
    + by rewrite Nat.eqb_refl.
    + rewrite Hpre by lia. apply Nat.eqb_neq. lia.
  - fold (run (Nat.eqb n) Notebook.cells). rewrite Hrun. simpl.
    rewrite Htr, length_take. lia.
Qed.

Lemma run_without_failure (raises : nat -> bool) :
  List.find raises (seq 0 14) = None ->
  run raises Notebook.cells = normal_run.
Proof.
  intros Hfind. unfold normal_run, run.
  apply (run_from_agree never raises 14).
  - intros m Hm. symmetry. apply (List.find_none _ _ Hfind).
    apply in_seq. lia.
  - vm_compute. lia.
Qed.

(** X12: whatever library calls raise, the run of the cells ends in one
    of two ways: all 14 calls are made and the run finishes as the normal
    run, or it fails with the error of the first raising call.  It never
    ends with an unbound name, a call of a non-callable, an exception raised
    by the notebook or a statement outside the fragment. *)
Theorem run_fails_only_in_library (raises : nat -> bool) :
  (run raises Notebook.cells = normal_run
   /\ length (calls normal_run) = 14
   /\ Forall (fun n => raises n = false) (seq 0 14))
  \/ (exists (n c : nat) (st : state),
        run raises Notebook.cells = Failed c (LibraryError n) st
        /\ raises n = true
        /\ n < 14
        /\ trace st = take (S n) (calls normal_run)).
Proof.
  destruct (List.find raises (seq 0 14)) as [n|] eqn:Hfind.
  - right. destruct (run_first_failure raises n Hfind) as (c & st & Hr & Ht).
    apply find_seq_first in Hfind as (Hlt & Hn & _).
    exists n, c, st. split_and!; [done|done|lia|done].
  - left. split_and!.
    + by apply run_without_failure.
    + vm_compute. reflexivity.
    + apply Forall_forall. intros n Hn.
      apply (List.find_none _ _ Hfind). by apply list_elem_of_In.
Qed.

(** X9: the function the sweep receives as update_hilbertspace=... is the
    notebook's own; run statement by statement in the notebook's final
    globals it succeeds for every real parameter value and every store, and
    its effect is that of update_hilbertspace. *)
Theorem sweep_callback_runs :
  exists f : value,
    callback = Some f
    /\ final_globals !! "update_hilbertspace" = Some f
    /\ forall (p : R) (h : heap),
         invoke final_globals f p h = Some (update_hilbertspace p h).
Proof.
  exists the_callback. split_and!.
  - apply callback_is_update_hilbertspace.
  - vm_compute. reflexivity.
  - intros p h. apply invoke_update_hilbertspace.
Qed.

(** X11: an attribute whose value a call of update_hilbertspace changes
    is the EJ of a subsystem listed in subsys_update_info. *)
Theorem callback_writes_declared_subsystems
  (p : R) (h : heap) (o : ref) (a : string) :
  getattr o a (update_hilbertspace p h) <> getattr o a h ->
  In (VObj o) declared_updates /\ a = "EJ".
Proof.
  intros Hchanged.
  replace declared_updates with [VObj tmon1; VObj tmon2]
    by (vm_compute; reflexivity).
  destruct (decide ((o, a) = (tmon1, "EJ"))) as [E|N1].
  { injection E as -> ->. split; [by left|done]. }
  destruct (decide ((o, a) = (tmon2, "EJ"))) as [E|N2].
  { injection E as -> ->. split; [by right; left|done]. }
  exfalso. apply Hchanged. by apply update_hilbertspace_other.
Qed.

Lemma callback_writes_declared_subsystems_witness :
  In (VObj tmon1) declared_updates /\ "EJ" = "EJ".
Proof.
  apply (callback_writes_declared_subsystems 0 ∅ tmon1 "EJ").
  rewrite update_hilbertspace_EJ1. unfold getattr.
  rewrite lookup_empty. discriminate.
Defined.

(** X13: the HilbertSpace returned by scq.HilbertSpace.create() (call 3)
    is dropped: no call has it as callee, receiver or argument, no global
    name holds it when the run ends, and hilbertspace names the object of
    the programmatic construction (call 4). *)
Theorem gui_hilbertspace_discarded :
  calls normal_run !! 3
  = Some (Event (VGet (scq_class "HilbertSpace") "create") [] [])
  /\ forallb (fun e => negb (event_mentions 3 e)) (calls normal_run) = true
  /\ forallb (fun kv => negb (mentions 3 (snd kv))) (map_to_list final_globals)
     = true
  /\ final_globals !! "hilbertspace" = Some (VObj 4).
Proof. split_and!; vm_compute; reflexivity. Qed.

(** X14: the names g, subsys_update_list and explorer are bound and never
    read; print is the only name read that the notebook does not bind. *)
Theorem dead_and_free_names :
  never_read Notebook.cells = ["g"; "subsys_update_list"; "explorer"]
  /\ never_bound Notebook.cells = ["print"].
Proof. split; vm_compute; reflexivity. Qed.



End RunFacts.
